(** * Error-message formatting of the nrfjprog binding

    A shallow embedding of [src/utility/errormessage.cpp]: the two static
    name tables, [ErrorMessage::getErrorMessage],
    [ErrorMessage::getTypeErrorMessage] and
    [ErrorMessage::getStructErrorMessage], followed by the properties the
    specification states about them.

    Integers of type [int] are modelled as [Z]; [std::string] as [string];
    a [std::ostringstream] as its buffer together with its base flag; the
    script values handed back to the caller as the inductive [JsValue]; the
    two file-level [static] tables as a store that every operation threads. *)

From Stdlib Require Import ZArith Ascii String HexString.
From stdpp Require Import base strings gmap pretty.

Local Open Scope Z_scope.

(** ** Strings *)

(** The line terminator that [std::endl] writes. *)
Definition newline : string := String "010"%char "".

(** [std::string::empty]. *)
Definition empty_string (s : string) : bool :=
  match s with
  | EmptyString => true
  | String _ _ => false
  end.

(** [contains s t]: the text [s] occurs somewhere inside [t]. *)
Definition contains (s t : string) : Prop :=
  ∃ before after, t = before +:+ s +:+ after.

(** An executable test for [contains]. *)
Fixpoint occursb (s t : string) : bool :=
  String.prefix s t ||
  match t with
  | EmptyString => false
  | String _ t' => occursb s t'
  end.

(** ** Number rendering of an output stream *)

(** Lower-case hexadecimal digits of a natural number, no prefix, no
    leading zeros. *)
Definition hex_digits (n : N) : string :=
  match n with
  | N0 => "0"
  | Npos p => HexString.Raw.of_pos p ""
  end.

(** What a stream in hexadecimal mode writes for an [int]: the digits of
    the value read as an unsigned 32-bit number. *)
Definition hex_of_int (n : Z) : string :=
  hex_digits (Z.to_N (n mod 2 ^ 32)).

(** What a stream in decimal mode writes for an [int]. *)
Definition dec_of_int (n : Z) : string := pretty n.

(** ** [std::ostringstream] *)

Inductive basefield := dec | hex.

Record ostringstream := {
  str : string;
  base : basefield
}.

(** A freshly constructed stream: empty buffer, decimal mode. *)
Definition ostringstream_new : ostringstream :=
  {| str := ""; base := dec |}.

(** The two manipulators the file uses. [std_hex] is sticky: it changes
    the base of every later integer insertion on the same stream. *)
Inductive manipulator := std_hex | std_endl.

(** [operator<<], overloaded on the type of the inserted value. *)
Class Insert (A : Type) := insert_into : ostringstream → A → ostringstream.

Notation "os << x" := (insert_into os x) (at level 40, left associativity).

Definition write (os : ostringstream) (s : string) : ostringstream :=
  {| str := str os +:+ s; base := base os |}.

#[global] Instance insert_string : Insert string := write.

#[global] Instance insert_int : Insert Z := λ os n,
  write os (match base os with
            | dec => dec_of_int n
            | hex => hex_of_int n
            end).

#[global] Instance insert_manipulator : Insert manipulator := λ os m,
  match m with
  | std_hex => {| str := str os; base := hex |}
  | std_endl => write os newline
  end.

(** ** Script values *)

(** The values of the scripting environment that this file produces. An
    object is its table of own properties. *)
#[warnings="-register-all"]
Inductive JsValue :=
| Undefined
| JsNumber (n : Z)
| JsString (s : string)
| JsObject (props : gmap string JsValue).

(** The message of an error value, if the value is an object that has one. *)
Definition error_message (v : JsValue) : option string :=
  match v with
  | JsObject props =>
      match props !! "message" with
      | Some (JsString msg) => Some msg
      | _ => None
      end
  | _ => None
  end.

(** A named property of a value, if the value is an object that has it. *)
Definition property (v : JsValue) (name : string) : option JsValue :=
  match v with
  | JsObject props => props !! name
  | _ => None
  end.

Module Nan.

(** [Nan::Undefined()]. *)
Definition Undefined : JsValue := Undefined.

(** [Nan::Error(msg)]: a new error object; its [message] property holds the
    text it was built from. Only that property is modelled: what else the
    engine puts on a new error object (its stack trace) is left out, and no
    statement below depends on it. *)
Definition Error (msg : JsValue) : gmap string JsValue :=
  {[ "message" := msg ]}.

End Nan.

(** ** The enumerations *)

(** The binding-level enumeration [errorcodes] is declared in a header of
    the repository that is not among the sources; the values of its
    enumerators, other than the success code, are parameters. *)
Class errorcodes := {
  CouldNotFindJlinkDLL : Z;
  CouldNotFindJprogDLL : Z;
  CouldNotLoadDLL : Z;
  CouldNotOpenDLL : Z;
  CouldNotOpenDevice : Z;
  CouldNotResetDevice : Z;
  CouldNotCloseDevice : Z;
  CouldNotConnectToDevice : Z;
  CouldNotCallFunction : Z;
  CouldNotErase : Z;
  CouldNotProgram : Z;
  CouldNotRead : Z;
  CouldNotOpenHexFile : Z;
  WrongMagicNumber : Z
}.

(** Modelled from the spec: the declaration of [errorcodes::JsSuccess] is
    missing; the data model says that for the binding-level code "zero
    denotes success". *)
Definition JsSuccess : Z := 0.

(** The vendor enumeration [nrfjprogdll_err_t] comes from the SDK's header;
    the values of its enumerators, other than the success code, are
    parameters. *)
Class nrfjprogdll_err_t := {
  OUT_OF_MEMORY : Z;
  INVALID_OPERATION : Z;
  INVALID_PARAMETER : Z;
  INVALID_DEVICE_FOR_OPERATION : Z;
  WRONG_FAMILY_FOR_DEVICE : Z;
  EMULATOR_NOT_CONNECTED : Z;
  CANNOT_CONNECT : Z;
  LOW_VOLTAGE : Z;
  NO_EMULATOR_CONNECTED : Z;
  FAMILY_UNKNOWN : Z;
  NVMC_ERROR : Z;
  RECOVER_FAILED : Z;
  RAM_IS_OFF_ERROR : Z;
  QspiIniNotFoundError : Z;
  QspiIniCannotBeOpenedError : Z;
  QspiSyntaxError : Z;
  QspiIniParsingError : Z;
  NOT_AVAILABLE_BECAUSE_PROTECTION : Z;
  NOT_AVAILABLE_BECAUSE_MPU_CONFIG : Z;
  JLINKARM_DLL_NOT_FOUND : Z;
  JLINKARM_DLL_COULD_NOT_BE_OPENED : Z;
  JLINKARM_DLL_ERROR : Z;
  JLINKARM_DLL_TOO_OLD : Z;
  NRFJPROG_SUB_DLL_NOT_FOUND : Z;
  NRFJPROG_SUB_DLL_COULD_NOT_BE_OPENED : Z;
  NRFJPROG_SUB_DLL_COULD_NOT_LOAD_FUNCTIONS : Z;
  NOT_IMPLEMENTED_ERROR : Z
}.

(** Modelled from the spec: the declaration of [SUCCESS] is missing; the
    data model says that for the vendor-level code "zero denotes success". *)
Definition SUCCESS : Z := 0.

(** ** Name tables and conversions *)

(** [name_map_t]: a map from integer code to display name. *)
Abbreviation name_map_t := (gmap Z string).

(** Modelled from the spec: the macro [NAME_MAP_ENTRY] is missing (it is
    declared with the conversion helpers); an entry of a lookup table maps
    an "integer code to display name string", and the display name of an
    enumerator entered through the macro is the enumerator's own
    identifier, given here as the second argument. *)
Definition NAME_MAP_ENTRY (value : Z) (name : string) : Z * string :=
  (value, name).

Module Convert.

(** Modelled from the spec: [Convert::valueToString] is missing from the
    sources. It "maps an integer error code ... to descriptive names via
    static lookup tables", and "unknown codes fall back to a literal
    "Unknown" name rather than failing". *)
Definition valueToString (value : Z) (name_map : name_map_t) : string :=
  default "Unknown" (name_map !! value).

(** [Convert::toJsString] and [Convert::toJsNumber]: the script value that
    holds the given text or number. *)
Definition toJsString (s : string) : JsValue := JsString s.
Definition toJsNumber (n : Z) : JsValue := JsNumber n.

End Convert.

Module Utility.

(** [Utility::Set(target, name, value)] ([Set] is a reserved word here):
    store [value] as the property [name] of the object, replacing an
    earlier value of that property. *)
Definition Set_ (target : gmap string JsValue) (name : string) (value : JsValue)
  : gmap string JsValue :=
  <[ name := value ]> target.

End Utility.

(** ** The static tables *)

(** The two file-level [static] tables, as the store the operations run in. *)
Record statics := {
  nrfjprog_js_err_map : name_map_t;
  nrfjprogdll_err_t_map : name_map_t
}.

(** A computation that may read and write the static tables. *)
Definition M (A : Type) : Type := statics → A * statics.

#[global] Instance M_ret : MRet M := λ A a st, (a, st).

#[global] Instance M_bind : MBind M := λ A B f m st,
  let '(a, st') := m st in f a st'.

(** Reading one of the static tables. *)
Definition load (table : statics → name_map_t) : M name_map_t :=
  λ st, (table st, st).

Section StaticInitialisation.
Context {ec : errorcodes} {dll : nrfjprogdll_err_t}.

(** The initialiser list of [nrfjprog_js_err_map]. Of two entries with the
    same key the earlier one is kept. *)
Definition nrfjprog_js_err_map_init : name_map_t :=
  list_to_map [
    (JsSuccess, "Success");
    (CouldNotFindJlinkDLL, "CouldNotFindJlinkDLL");
    (CouldNotFindJprogDLL, "CouldNotFindJprogDLL");
    (CouldNotLoadDLL, "CouldNotLoadDLL");
    (CouldNotOpenDLL, "CouldNotOpenDLL");
    (CouldNotOpenDevice, "CouldNotOpenDevice");
    (CouldNotResetDevice, "CouldNotResetDevice");
    (CouldNotCloseDevice, "CouldNotCloseDevice");
    (CouldNotConnectToDevice, "CouldNotConnectToDevice");
    (CouldNotCallFunction, "CouldNotCallFunction");
    (CouldNotErase, "CouldNotErase");
    (CouldNotProgram, "CouldNotProgram");
    (CouldNotRead, "CouldNotRead");
    (CouldNotOpenHexFile, "CouldNotOpenHexFile");
    (WrongMagicNumber, "WrongMagicNumber")
  ].

(** The initialiser list of [nrfjprogdll_err_t_map]. *)
Definition nrfjprogdll_err_t_map_init : name_map_t :=
  list_to_map [
    NAME_MAP_ENTRY SUCCESS "SUCCESS";
    NAME_MAP_ENTRY OUT_OF_MEMORY "OUT_OF_MEMORY";
    NAME_MAP_ENTRY INVALID_OPERATION "INVALID_OPERATION";
    NAME_MAP_ENTRY INVALID_PARAMETER "INVALID_PARAMETER";
    NAME_MAP_ENTRY INVALID_DEVICE_FOR_OPERATION "INVALID_DEVICE_FOR_OPERATION";
    NAME_MAP_ENTRY WRONG_FAMILY_FOR_DEVICE "WRONG_FAMILY_FOR_DEVICE";
    NAME_MAP_ENTRY EMULATOR_NOT_CONNECTED "EMULATOR_NOT_CONNECTED";
    NAME_MAP_ENTRY CANNOT_CONNECT "CANNOT_CONNECT";
    NAME_MAP_ENTRY LOW_VOLTAGE "LOW_VOLTAGE";
    NAME_MAP_ENTRY NO_EMULATOR_CONNECTED "NO_EMULATOR_CONNECTED";
    NAME_MAP_ENTRY FAMILY_UNKNOWN "FAMILY_UNKNOWN";
    NAME_MAP_ENTRY NVMC_ERROR "NVMC_ERROR";
    NAME_MAP_ENTRY RECOVER_FAILED "RECOVER_FAILED";
    NAME_MAP_ENTRY RAM_IS_OFF_ERROR "RAM_IS_OFF_ERROR";
    NAME_MAP_ENTRY QspiIniNotFoundError "QspiIniNotFoundError";
    NAME_MAP_ENTRY QspiIniCannotBeOpenedError "QspiIniCannotBeOpenedError";
    NAME_MAP_ENTRY QspiSyntaxError "QspiSyntaxError";
    NAME_MAP_ENTRY QspiIniParsingError "QspiIniParsingError";
    NAME_MAP_ENTRY NOT_AVAILABLE_BECAUSE_PROTECTION "NOT_AVAILABLE_BECAUSE_PROTECTION";
    NAME_MAP_ENTRY NOT_AVAILABLE_BECAUSE_MPU_CONFIG "NOT_AVAILABLE_BECAUSE_MPU_CONFIG";
    NAME_MAP_ENTRY JLINKARM_DLL_NOT_FOUND "JLINKARM_DLL_NOT_FOUND";
    NAME_MAP_ENTRY JLINKARM_DLL_COULD_NOT_BE_OPENED "JLINKARM_DLL_COULD_NOT_BE_OPENED";
    NAME_MAP_ENTRY JLINKARM_DLL_ERROR "JLINKARM_DLL_ERROR";
    NAME_MAP_ENTRY JLINKARM_DLL_TOO_OLD "JLINKARM_DLL_TOO_OLD";
    NAME_MAP_ENTRY NRFJPROG_SUB_DLL_NOT_FOUND "NRFJPROG_SUB_DLL_NOT_FOUND";
    NAME_MAP_ENTRY NRFJPROG_SUB_DLL_COULD_NOT_BE_OPENED "NRFJPROG_SUB_DLL_COULD_NOT_BE_OPENED";
    NAME_MAP_ENTRY NRFJPROG_SUB_DLL_COULD_NOT_LOAD_FUNCTIONS "NRFJPROG_SUB_DLL_COULD_NOT_LOAD_FUNCTIONS";
    NAME_MAP_ENTRY NOT_IMPLEMENTED_ERROR "NOT_IMPLEMENTED_ERROR"
  ].

(** The store once static initialisation has run. *)
Definition static_init : statics :=
  {| nrfjprog_js_err_map := nrfjprog_js_err_map_init;
     nrfjprogdll_err_t_map := nrfjprogdll_err_t_map_init |}.

End StaticInitialisation.

(** ** The three operations *)

Module ErrorMessage.

(** [ErrorMessage::getErrorMessage]. The handles [error] and [errorObject]
    of the source denote one and the same object; the value returned is
    that object after the seven properties have been set on it. *)
Definition getErrorMessage (errorCode : Z) (customMessage logmessage : string)
    (lowlevelError : Z) : M JsValue :=
  if decide (errorCode = JsSuccess) then mret Nan.Undefined
  else
    let errorStringStream := ostringstream_new in
    js_names ← load nrfjprog_js_err_map;
    let errorStringStream :=
      errorStringStream << "Error occured when " << customMessage << ". "
        << "Errorcode: " << Convert.valueToString errorCode js_names
        << " (0x" << std_hex << errorCode << ")" << std_endl in
    errorStringStream ←
      (if decide (lowlevelError ≠ SUCCESS) then
         dll_names ← load nrfjprogdll_err_t_map;
         mret (errorStringStream << "Lowlevel error: "
                 << Convert.valueToString lowlevelError dll_names
                 << " (" << lowlevelError << ")" << std_endl)
       else mret errorStringStream);
    let errorStringStream :=
      if negb (empty_string logmessage)
      then errorStringStream << logmessage << std_endl
      else errorStringStream in
    let error := Nan.Error (Convert.toJsString (str errorStringStream)) in
    let errorObject := error in
    let errorObject :=
      Utility.Set_ errorObject "errno" (Convert.toJsNumber errorCode) in
    js_names ← load nrfjprog_js_err_map;
    let errorObject :=
      Utility.Set_ errorObject "errcode"
        (JsString (Convert.valueToString errorCode js_names)) in
    let errorObject :=
      Utility.Set_ errorObject "erroperation" (Convert.toJsString customMessage) in
    let errorObject :=
      Utility.Set_ errorObject "errmsg"
        (Convert.toJsString (str errorStringStream)) in
    let errorObject :=
      Utility.Set_ errorObject "lowlevelErrorNo" (Convert.toJsNumber lowlevelError) in
    dll_names ← load nrfjprogdll_err_t_map;
    let errorObject :=
      Utility.Set_ errorObject "lowlevelError"
        (JsString (Convert.valueToString lowlevelError dll_names)) in
    let errorObject :=
      Utility.Set_ errorObject "output" (Convert.toJsString logmessage) in
    mret (JsObject errorObject).

(** [ErrorMessage::getTypeErrorMessage]. *)
Definition getTypeErrorMessage (argumentNumber : Z) (message : string)
  : M JsValue :=
  let stream := ostringstream_new in
  let stream :=
    match argumentNumber with
    | 0 => stream << "First"
    | 1 => stream << "Second"
    | 2 => stream << "Third"
    | 3 => stream << "Fourth"
    | 4 => stream << "Fifth"
    | 5 => stream << "Sixth"
    | 6 => stream << "Seventh"
    | _ => stream << "Unknown"
    end in
  let stream := stream << " argument must be a " << message in
  mret (Convert.toJsString (str stream)).

(** [ErrorMessage::getStructErrorMessage]. *)
Definition getStructErrorMessage (name message : string) : M JsValue :=
  let stream := ostringstream_new in
  let stream := stream << "Property: " << name << " Message: " << message in
  mret (Convert.toJsString (str stream)).

End ErrorMessage.

(** ** The composed message, section by section *)

(** The part of the message that names the operation and the binding error. *)
Definition binding_section (errorCode : Z) (customMessage : string)
    (js_names : name_map_t) : string :=
  "Error occured when " +:+ customMessage +:+ ". Errorcode: "
    +:+ Convert.valueToString errorCode js_names
    +:+ " (0x" +:+ hex_of_int errorCode +:+ ")" +:+ newline.

(** The part that names the vendor error; written after [std_hex] took
    effect, so its number is in hexadecimal too, without a prefix. *)
Definition vendor_section (lowlevelError : Z) (dll_names : name_map_t) : string :=
  "Lowlevel error: " +:+ Convert.valueToString lowlevelError dll_names
    +:+ " (" +:+ hex_of_int lowlevelError +:+ ")" +:+ newline.

(** The part that carries the log text. *)
Definition log_section (logmessage : string) : string :=
  logmessage +:+ newline.

(** The whole message for a non-success binding code. *)
Definition composed_message (errorCode : Z) (customMessage logmessage : string)
    (lowlevelError : Z) (st : statics) : string :=
  binding_section errorCode customMessage (nrfjprog_js_err_map st)
    +:+ (if decide (lowlevelError = SUCCESS) then ""
         else vendor_section lowlevelError (nrfjprogdll_err_t_map st))
    +:+ (if empty_string logmessage then "" else log_section logmessage).

(** The error object for a non-success binding code: the object made from
    the message, with the seven properties set in the order of the source. *)
Definition error_object (errorCode : Z) (customMessage logmessage : string)
    (lowlevelError : Z) (st : statics) : gmap string JsValue :=
  let msg := composed_message errorCode customMessage logmessage lowlevelError st in
  <[ "output" := JsString logmessage ]> (
  <[ "lowlevelError" :=
       JsString (Convert.valueToString lowlevelError (nrfjprogdll_err_t_map st)) ]> (
  <[ "lowlevelErrorNo" := JsNumber lowlevelError ]> (
  <[ "errmsg" := JsString msg ]> (
  <[ "erroperation" := JsString customMessage ]> (
  <[ "errcode" :=
       JsString (Convert.valueToString errorCode (nrfjprog_js_err_map st)) ]> (
  <[ "errno" := JsNumber errorCode ]> (
  {[ "message" := JsString msg ]}))))))).

(** ** The specification's wording, for comparison with the code *)

(** The ordinal word the specification assigns to a zero-based argument
    index: the seven words for the indices 0 to 6, "Unknown" for every
    other index. *)
Definition ordinal_word (index : Z) : string :=
  if bool_decide (0 ≤ index ≤ 6)
  then default "Unknown"
         (["First"; "Second"; "Third"; "Fourth"; "Fifth"; "Sixth"; "Seventh"]
            !! Z.to_nat index)
  else "Unknown".

(** ** One valuation of the enumerators

    Used where an operation is evaluated on concrete inputs; the general
    properties below hold for every valuation. *)

Definition errorcodes_sample : errorcodes := {|
  CouldNotFindJlinkDLL := 1;
  CouldNotFindJprogDLL := 2;
  CouldNotLoadDLL := 3;
  CouldNotOpenDLL := 4;
  CouldNotOpenDevice := 5;
  CouldNotResetDevice := 6;
  CouldNotCloseDevice := 7;
  CouldNotConnectToDevice := 8;
  CouldNotCallFunction := 9;
  CouldNotErase := 10;
  CouldNotProgram := 11;
  CouldNotRead := 12;
  CouldNotOpenHexFile := 13;
  WrongMagicNumber := 14
|}.

Definition nrfjprogdll_err_t_sample : nrfjprogdll_err_t := {|
  OUT_OF_MEMORY := -1;
  INVALID_OPERATION := -2;
  INVALID_PARAMETER := -3;
  INVALID_DEVICE_FOR_OPERATION := -4;
  WRONG_FAMILY_FOR_DEVICE := -5;
  EMULATOR_NOT_CONNECTED := -10;
  CANNOT_CONNECT := -11;
  LOW_VOLTAGE := -12;
  NO_EMULATOR_CONNECTED := -13;
  FAMILY_UNKNOWN := -14;
  NVMC_ERROR := -20;
  RECOVER_FAILED := -21;
  RAM_IS_OFF_ERROR := -22;
  QspiIniNotFoundError := -23;
  QspiIniCannotBeOpenedError := -24;
  QspiSyntaxError := -25;
  QspiIniParsingError := -26;
  NOT_AVAILABLE_BECAUSE_PROTECTION := -90;
  NOT_AVAILABLE_BECAUSE_MPU_CONFIG := -91;
  JLINKARM_DLL_NOT_FOUND := -100;
  JLINKARM_DLL_COULD_NOT_BE_OPENED := -101;
  JLINKARM_DLL_ERROR := -102;
  JLINKARM_DLL_TOO_OLD := -103;
  NRFJPROG_SUB_DLL_NOT_FOUND := -150;
  NRFJPROG_SUB_DLL_COULD_NOT_BE_OPENED := -151;
  NRFJPROG_SUB_DLL_COULD_NOT_LOAD_FUNCTIONS := -152;
  NOT_IMPLEMENTED_ERROR := -255
|}.

(** The store after static initialisation under that valuation. *)
Definition sample_store : statics :=
  @static_init errorcodes_sample nrfjprogdll_err_t_sample.

(** ** The enumerators each table is built from *)

Section Enumerators.
Context {ec : errorcodes} {dll : nrfjprogdll_err_t}.

(** The keys of the initialiser list of [nrfjprog_js_err_map], in its order. *)
Definition errorcodes_values : list Z :=
  [ JsSuccess; CouldNotFindJlinkDLL; CouldNotFindJprogDLL; CouldNotLoadDLL;
    CouldNotOpenDLL; CouldNotOpenDevice; CouldNotResetDevice;
    CouldNotCloseDevice; CouldNotConnectToDevice; CouldNotCallFunction;
    CouldNotErase; CouldNotProgram; CouldNotRead; CouldNotOpenHexFile;
    WrongMagicNumber ].

(** The keys of the initialiser list of [nrfjprogdll_err_t_map], in its order. *)
Definition nrfjprogdll_err_t_values : list Z :=
  [ SUCCESS; OUT_OF_MEMORY; INVALID_OPERATION; INVALID_PARAMETER;
    INVALID_DEVICE_FOR_OPERATION; WRONG_FAMILY_FOR_DEVICE;
    EMULATOR_NOT_CONNECTED; CANNOT_CONNECT; LOW_VOLTAGE; NO_EMULATOR_CONNECTED;
    FAMILY_UNKNOWN; NVMC_ERROR; RECOVER_FAILED; RAM_IS_OFF_ERROR;
    QspiIniNotFoundError; QspiIniCannotBeOpenedError; QspiSyntaxError;
    QspiIniParsingError; NOT_AVAILABLE_BECAUSE_PROTECTION;
    NOT_AVAILABLE_BECAUSE_MPU_CONFIG; JLINKARM_DLL_NOT_FOUND;
    JLINKARM_DLL_COULD_NOT_BE_OPENED; JLINKARM_DLL_ERROR; JLINKARM_DLL_TOO_OLD;
    NRFJPROG_SUB_DLL_NOT_FOUND; NRFJPROG_SUB_DLL_COULD_NOT_BE_OPENED;
    NRFJPROG_SUB_DLL_COULD_NOT_LOAD_FUNCTIONS; NOT_IMPLEMENTED_ERROR ].

End Enumerators.

(** ** Facts about strings *)

Lemma string_app_cons (x : ascii) (a b : string) :
  String x a +:+ b = String x (a +:+ b).
Proof. reflexivity. Qed.

Lemma string_app_assoc (a b c : string) : (a +:+ b) +:+ c = a +:+ (b +:+ c).
Proof.
  induction a as [|x a IH]; [reflexivity|].
  rewrite !string_app_cons. by rewrite IH.
Qed.

Lemma string_app_nil_r (a : string) : a +:+ "" = a.
Proof.
  induction a as [|x a IH]; [reflexivity|].
  rewrite string_app_cons. by rewrite IH.
Qed.

Lemma prefix_app (s t : string) :
  String.prefix s t = true ↔ ∃ rest, t = s +:+ rest.
Proof.
  revert t. induction s as [|x s IH]; intros t.
  - split; [intros _; by exists t|]. intros _. by destruct t.
  - destruct t as [|y t].
    + split; [discriminate|]. intros [rest Hrest].
      rewrite string_app_cons in Hrest. discriminate.
    + cbn [String.prefix]. destruct (Ascii.ascii_dec x y) as [->|Hxy].
      * rewrite IH. split; intros [rest Hrest]; exists rest.
        -- rewrite string_app_cons. by rewrite Hrest.
        -- rewrite string_app_cons in Hrest. congruence.
      * split; [discriminate|]. intros [rest Hrest].
        rewrite string_app_cons in Hrest. congruence.
Qed.

Lemma occursb_contains (s t : string) : occursb s t = true ↔ contains s t.
Proof.
  induction t as [|y t IH]; cbn [occursb].
  - rewrite orb_false_r, prefix_app. split.
    + intros [rest ->]. by exists "", rest.
    + intros ([|b before] & after & Hbefore).
      * by exists after.
      * rewrite string_app_cons in Hbefore. discriminate.
  - rewrite orb_true_iff, prefix_app, IH. split.
    + intros [[rest ->]|(before & after & ->)].
      * by exists "", rest.
      * by exists (String y before), after.
    + intros ([|b before] & after & Hbefore).
      * left. by exists after.
      * right. exists before, after.
        rewrite string_app_cons in Hbefore. congruence.
Qed.

Lemma contains_app_l (s t before : string) : contains s t → contains s (before +:+ t).
Proof.
  intros (b & a & ->). exists (before +:+ b), a. by rewrite string_app_assoc.
Qed.

Lemma contains_app_r (s t after : string) : contains s t → contains s (t +:+ after).
Proof.
  intros (b & a & ->). exists b, (a +:+ after). by rewrite !string_app_assoc.
Qed.

Lemma contains_here (s after : string) : contains s (s +:+ after).
Proof. by exists "", after. Qed.

(** The digits written in hexadecimal mode read back as the number. *)
Lemma hex_digits_value (n : N) : HexString.to_N ("0x" +:+ hex_digits n) = n.
Proof. rewrite <- (HexString.to_N_of_N n) at 2. by destruct n. Qed.

(** ** Facts about the operations *)

Ltac unfold_stream :=
  unfold insert_into, insert_string, insert_int, insert_manipulator, write,
    ostringstream_new;
  cbn [str base].

Ltac unfold_store :=
  unfold mbind, M_bind, mret, M_ret, load.

(** For a non-success binding code the operation returns the error object
    in closed form, and the store it was given. *)
Lemma getErrorMessage_failure errorCode customMessage logmessage lowlevelError st :
  errorCode ≠ JsSuccess →
  ErrorMessage.getErrorMessage errorCode customMessage logmessage lowlevelError st
  = (JsObject (error_object errorCode customMessage logmessage lowlevelError st), st).
Proof.
  intros Hcode. unfold ErrorMessage.getErrorMessage.
  destruct (decide (errorCode = JsSuccess)) as [|_]; [done|].
  unfold_store.
  unfold error_object, composed_message, binding_section, vendor_section, log_section.
  destruct (decide (lowlevelError ≠ SUCCESS));
    destruct (decide (lowlevelError = SUCCESS)); try done;
    destruct logmessage; cbn [empty_string negb];
    unfold_stream;
    unfold Utility.Set_, Nan.Error, Convert.toJsString, Convert.toJsNumber;
    by rewrite ?string_app_assoc, ?string_app_nil_r.
Qed.

Lemma getErrorMessage_success_value customMessage logmessage lowlevelError st :
  ErrorMessage.getErrorMessage JsSuccess customMessage logmessage lowlevelError st
  = (Undefined, st).
Proof. reflexivity. Qed.

Lemma error_object_message errorCode customMessage logmessage lowlevelError st :
  error_object errorCode customMessage logmessage lowlevelError st !! "message"
  = Some (JsString
            (composed_message errorCode customMessage logmessage lowlevelError st)).
Proof. unfold error_object. by simplify_map_eq. Qed.

Lemma composed_message_binding errorCode customMessage logmessage lowlevelError st :
  ∃ rest,
    composed_message errorCode customMessage logmessage lowlevelError st
    = binding_section errorCode customMessage (nrfjprog_js_err_map st) +:+ rest.
Proof. unfold composed_message. eauto. Qed.

Lemma binding_section_operation errorCode customMessage js_names :
  contains customMessage (binding_section errorCode customMessage js_names).
Proof. unfold binding_section. apply contains_app_l, contains_here. Qed.

Lemma binding_section_code errorCode customMessage js_names :
  contains
    ("Errorcode: " +:+ Convert.valueToString errorCode js_names
       +:+ " (0x" +:+ hex_of_int errorCode +:+ ")")
    (binding_section errorCode customMessage js_names).
Proof.
  unfold binding_section.
  exists ("Error occured when " +:+ customMessage +:+ ". "), newline.
  by rewrite !string_app_assoc.
Qed.

Lemma binding_section_nonempty errorCode customMessage js_names rest :
  binding_section errorCode customMessage js_names +:+ rest ≠ "".
Proof. discriminate. Qed.

Lemma table_has_JsSuccess `{errorcodes} :
  nrfjprog_js_err_map_init !! JsSuccess = Some "Success".
Proof. unfold nrfjprog_js_err_map_init. rewrite list_to_map_cons. apply lookup_insert_eq. Qed.

Lemma table_has_SUCCESS `{nrfjprogdll_err_t} :
  nrfjprogdll_err_t_map_init !! SUCCESS = Some "SUCCESS".
Proof.
  unfold nrfjprogdll_err_t_map_init, NAME_MAP_ENTRY.
  rewrite list_to_map_cons. apply lookup_insert_eq.
Qed.

(** [ordinal_word] spelled out: the seven words, and "Unknown" outside
    the range 0 to 6. *)
Lemma ordinal_word_cases :
  ordinal_word 0 = "First" ∧ ordinal_word 1 = "Second"
  ∧ ordinal_word 2 = "Third" ∧ ordinal_word 3 = "Fourth"
  ∧ ordinal_word 4 = "Fifth" ∧ ordinal_word 5 = "Sixth"
  ∧ ordinal_word 6 = "Seventh"
  ∧ ∀ index, index < 0 ∨ 6 < index → ordinal_word index = "Unknown".
Proof.
  repeat (split; [reflexivity|]).
  intros index Hout. unfold ordinal_word. case_bool_decide; [lia|done].
Qed.

(** ** The operations on concrete inputs *)

Example getErrorMessage_with_vendor_and_log :
  error_message
    (fst (ErrorMessage.getErrorMessage 5 "get device info" "JLink: no probe"
            (-2) sample_store))
  = Some ("Error occured when get device info. Errorcode: CouldNotOpenDevice (0x5)"
            +:+ newline +:+ "Lowlevel error: INVALID_OPERATION (fffffffe)"
            +:+ newline +:+ "JLink: no probe" +:+ newline).
Proof. reflexivity. Qed.

Example getErrorMessage_unknown_names :
  error_message
    (fst (ErrorMessage.getErrorMessage (-1) "erasing" "" 77 sample_store))
  = Some ("Error occured when erasing. Errorcode: Unknown (0xffffffff)"
            +:+ newline +:+ "Lowlevel error: Unknown (4d)" +:+ newline).
Proof. reflexivity. Qed.

Example getErrorMessage_success_ignores_vendor :
  fst (ErrorMessage.getErrorMessage JsSuccess "erasing" "some log" (-2) sample_store)
  = Undefined.
Proof. reflexivity. Qed.

Example getTypeErrorMessage_samples :
  fst (ErrorMessage.getTypeErrorMessage 0 "string" sample_store)
  = JsString "First argument must be a string"
  ∧ fst (ErrorMessage.getTypeErrorMessage 6 "function" sample_store)
    = JsString "Seventh argument must be a function"
  ∧ fst (ErrorMessage.getTypeErrorMessage 7 "function" sample_store)
    = JsString "Unknown argument must be a function"
  ∧ fst (ErrorMessage.getTypeErrorMessage (-1) "number" sample_store)
    = JsString "Unknown argument must be a number".
Proof. by repeat split. Qed.

(** ** The properties of the specification *)

(** C1. With the binding-level success code [JsSuccess], whatever the
    operation description, the log text and the vendor-level code (zero or
    not), [getErrorMessage] returns [Undefined] and no error object; the
    static tables are left as they were. *)
Theorem getErrorMessage_success customMessage logmessage lowlevelError st :
  ErrorMessage.getErrorMessage JsSuccess customMessage logmessage lowlevelError st
  = (Nan.Undefined, st).
Proof.
  unfold ErrorMessage.getErrorMessage.
  by destruct (decide (JsSuccess = JsSuccess)).
Qed.

(** C2, as stated, fails: the message renders the binding code in
    hexadecimal only. For the code 10 the message reads
    "... Errorcode: CouldNotErase (0xa)" and the decimal numeral 10 occurs
    nowhere in it. *)
Lemma getErrorMessage_decimal_code_absent :
  error_message
    (fst (ErrorMessage.getErrorMessage 10 "erasing" "" SUCCESS sample_store))
  = Some ("Error occured when erasing. Errorcode: CouldNotErase (0xa)" +:+ newline)
  ∧ ¬ contains (dec_of_int 10)
        ("Error occured when erasing. Errorcode: CouldNotErase (0xa)" +:+ newline).
Proof.
  split; [reflexivity|].
  rewrite <- occursb_contains. by vm_compute.
Qed.

(** C2, amended. For every non-success binding code, [getErrorMessage]
    returns an error object whose message is not empty, contains the
    operation description, and contains the binding error name followed by
    the binding code in hexadecimal, introduced by "0x"; the code is not
    rendered in decimal. *)
Theorem getErrorMessage_operation_and_code
    errorCode customMessage logmessage lowlevelError st :
  errorCode ≠ JsSuccess →
  ∃ props msg,
    ErrorMessage.getErrorMessage errorCode customMessage logmessage lowlevelError st
    = (JsObject props, st)
    ∧ props !! "message" = Some (JsString msg)
    ∧ msg ≠ ""
    ∧ contains customMessage msg
    ∧ contains
        ("Errorcode: "
           +:+ Convert.valueToString errorCode (nrfjprog_js_err_map st)
           +:+ " (0x" +:+ hex_of_int errorCode +:+ ")")
        msg.
Proof.
  intros Hcode. eexists _, _.
  split; [by apply getErrorMessage_failure|].
  split; [apply error_object_message|].
  destruct (composed_message_binding errorCode customMessage logmessage
              lowlevelError st) as [rest ->].
  split; [apply binding_section_nonempty|].
  split; apply contains_app_r.
  - apply binding_section_operation.
  - apply binding_section_code.
Qed.

Lemma getErrorMessage_operation_and_code_witness :
  10 ≠ JsSuccess
  ∧ ∃ props msg,
      ErrorMessage.getErrorMessage 10 "erasing" "" SUCCESS sample_store
      = (JsObject props, sample_store)
      ∧ props !! "message" = Some (JsString msg)
      ∧ msg ≠ ""
      ∧ contains "erasing" msg
      ∧ contains
          ("Errorcode: "
             +:+ Convert.valueToString 10 (nrfjprog_js_err_map sample_store)
             +:+ " (0x" +:+ hex_of_int 10 +:+ ")")
          msg.
Proof.
  split; [discriminate|].
  apply (getErrorMessage_operation_and_code 10 "erasing" "" SUCCESS sample_store).
  discriminate.
Defined.

(** C3. For every non-success binding code, with the vendor-level code 0
    ([SUCCESS]) and an empty log text, the message is exactly the sentence
    that gives the operation description and the binding error name and
    number, and ends there: no vendor section, no log section. *)
Theorem getErrorMessage_binding_section_only errorCode customMessage st :
  errorCode ≠ JsSuccess →
  error_message
    (fst (ErrorMessage.getErrorMessage errorCode customMessage "" 0 st))
  = Some ("Error occured when " +:+ customMessage +:+ ". Errorcode: "
            +:+ Convert.valueToString errorCode (nrfjprog_js_err_map st)
            +:+ " (0x" +:+ hex_of_int errorCode +:+ ")" +:+ newline).
Proof.
  intros Hcode. rewrite getErrorMessage_failure by done.
  cbn [fst error_message]. rewrite error_object_message.
  unfold composed_message. cbn [empty_string].
  destruct (decide (0 = SUCCESS)); [|done].
  by rewrite !string_app_nil_r.
Qed.

Lemma getErrorMessage_binding_section_only_witness :
  3 ≠ JsSuccess
  ∧ error_message
      (fst (ErrorMessage.getErrorMessage 3 "loading the library" "" 0 sample_store))
    = Some ("Error occured when " +:+ "loading the library" +:+ ". Errorcode: "
              +:+ Convert.valueToString 3 (nrfjprog_js_err_map sample_store)
              +:+ " (0x" +:+ hex_of_int 3 +:+ ")" +:+ newline).
Proof.
  split; [discriminate|].
  apply (getErrorMessage_binding_section_only 3 "loading the library" sample_store).
  discriminate.
Defined.

(** C4, defect in the code. Line 111 inserts the vendor code with neither
    "0x" nor [std::hex], but the stream is still in the hexadecimal mode
    that line 107 set, so the number between the parentheses is not the
    vendor code's value: the code -2 is written "fffffffe" and the code 16
    is written "10"; the decimal numerals "-2" and "16" occur nowhere in
    the two messages. *)
Lemma getErrorMessage_vendor_number_defect :
  error_message
    (fst (ErrorMessage.getErrorMessage 5 "get device info" "" (-2) sample_store))
  = Some ("Error occured when get device info. Errorcode: CouldNotOpenDevice (0x5)"
            +:+ newline +:+ "Lowlevel error: INVALID_OPERATION (fffffffe)"
            +:+ newline)
  ∧ ¬ contains (dec_of_int (-2))
        ("Error occured when get device info. Errorcode: CouldNotOpenDevice (0x5)"
           +:+ newline +:+ "Lowlevel error: INVALID_OPERATION (fffffffe)"
           +:+ newline)
  ∧ error_message
      (fst (ErrorMessage.getErrorMessage 5 "get device info" "" 16 sample_store))
    = Some ("Error occured when get device info. Errorcode: CouldNotOpenDevice (0x5)"
              +:+ newline +:+ "Lowlevel error: Unknown (10)" +:+ newline)
  ∧ ¬ contains (dec_of_int 16)
        ("Error occured when get device info. Errorcode: CouldNotOpenDevice (0x5)"
           +:+ newline +:+ "Lowlevel error: Unknown (10)" +:+ newline).
Proof.
  split; [reflexivity|]. split; [rewrite <- occursb_contains; by vm_compute|].
  split; [reflexivity|]. rewrite <- occursb_contains. by vm_compute.
Qed.

(** X13. What the code writes after the binding section when the vendor
    code is not zero: the vendor section, that is "Lowlevel error: ", the
    vendor error name and, between parentheses, the vendor code as the
    stream renders it in hexadecimal mode (32-bit, no prefix); then the log
    text and a line end when the log text is not empty, and nothing when
    it is empty. *)
Theorem getErrorMessage_vendor_and_log
    errorCode customMessage logmessage lowlevelError st :
  errorCode ≠ JsSuccess →
  lowlevelError ≠ 0 →
  ∃ msg,
    error_message
      (fst (ErrorMessage.getErrorMessage errorCode customMessage logmessage
              lowlevelError st))
    = Some msg
    ∧ contains
        ("Lowlevel error: "
           +:+ Convert.valueToString lowlevelError (nrfjprogdll_err_t_map st)
           +:+ " (" +:+ hex_of_int lowlevelError +:+ ")")
        msg
    ∧ (logmessage ≠ "" →
       msg = binding_section errorCode customMessage (nrfjprog_js_err_map st)
               +:+ vendor_section lowlevelError (nrfjprogdll_err_t_map st)
               +:+ logmessage +:+ newline)
    ∧ (logmessage = "" →
       msg = binding_section errorCode customMessage (nrfjprog_js_err_map st)
               +:+ vendor_section lowlevelError (nrfjprogdll_err_t_map st)).
Proof.
  intros Hcode Hll. eexists.
  split.
  { rewrite getErrorMessage_failure by done.
    cbn [fst error_message]. by rewrite error_object_message. }
  unfold composed_message.
  destruct (decide (lowlevelError = SUCCESS)); [done|].
  split; [|split].
  - apply contains_app_l, contains_app_r. unfold vendor_section.
    exists "", newline. by rewrite !string_app_assoc.
  - intros Hlog. destruct logmessage; [done|]. reflexivity.
  - intros ->. cbn [empty_string]. by rewrite string_app_nil_r.
Qed.

Lemma getErrorMessage_vendor_and_log_witness :
  (11 ≠ JsSuccess ∧ -102 ≠ 0)
  ∧ ∃ msg,
      error_message
        (fst (ErrorMessage.getErrorMessage 11 "programming" "JLink reported a fault"
                (-102) sample_store))
      = Some msg
      ∧ contains
          ("Lowlevel error: "
             +:+ Convert.valueToString (-102) (nrfjprogdll_err_t_map sample_store)
             +:+ " (" +:+ hex_of_int (-102) +:+ ")")
          msg
      ∧ ("JLink reported a fault" ≠ "" →
         msg = binding_section 11 "programming" (nrfjprog_js_err_map sample_store)
                 +:+ vendor_section (-102) (nrfjprogdll_err_t_map sample_store)
                 +:+ "JLink reported a fault" +:+ newline)
      ∧ ("JLink reported a fault" = "" →
         msg = binding_section 11 "programming" (nrfjprog_js_err_map sample_store)
                 +:+ vendor_section (-102) (nrfjprogdll_err_t_map sample_store)).
Proof.
  split; [split; discriminate|].
  apply (getErrorMessage_vendor_and_log 11 "programming" "JLink reported a fault"
           (-102) sample_store); discriminate.
Defined.

Section UnknownCodes.
Context {ec : errorcodes} {dll : nrfjprogdll_err_t}.

(** C5. A code with no entry in its table is named "Unknown", and the
    call still returns its result. (i) [valueToString] returns "Unknown"
    for a value the table does not hold. (ii) For a binding code with no
    entry in [nrfjprog_js_err_map], [getErrorMessage] returns an error
    object whose [errcode] is "Unknown" and whose message names the
    binding error "Unknown". (iii) For a vendor code with no entry in
    [nrfjprogdll_err_t_map], next to a non-success binding code, the
    error object's [lowlevelError] is "Unknown" and the message names the
    vendor error "Unknown". *)
Theorem getErrorMessage_unknown_codes
    errorCode customMessage logmessage lowlevelError :
  (∀ value (name_map : name_map_t),
     name_map !! value = None →
     Convert.valueToString value name_map = "Unknown")
  ∧ (nrfjprog_js_err_map static_init !! errorCode = None →
     ∃ props msg,
       ErrorMessage.getErrorMessage errorCode customMessage logmessage
         lowlevelError static_init
       = (JsObject props, static_init)
       ∧ props !! "errcode" = Some (JsString "Unknown")
       ∧ props !! "message" = Some (JsString msg)
       ∧ contains ("Errorcode: Unknown (0x" +:+ hex_of_int errorCode +:+ ")") msg)
  ∧ (errorCode ≠ JsSuccess →
     nrfjprogdll_err_t_map static_init !! lowlevelError = None →
     ∃ props msg,
       ErrorMessage.getErrorMessage errorCode customMessage logmessage
         lowlevelError static_init
       = (JsObject props, static_init)
       ∧ props !! "lowlevelError" = Some (JsString "Unknown")
       ∧ props !! "message" = Some (JsString msg)
       ∧ contains
           ("Lowlevel error: Unknown (" +:+ hex_of_int lowlevelError +:+ ")") msg).
Proof.
  split; [|split].
  - intros value name_map Hnone. unfold Convert.valueToString. by rewrite Hnone.
  - intros Hnone.
    assert (errorCode ≠ JsSuccess) as Hcode.
    { intros ->. cbn [nrfjprog_js_err_map static_init] in Hnone.
      by rewrite table_has_JsSuccess in Hnone. }
    eexists _, _. split; [by apply getErrorMessage_failure|].
    split; [|split; [apply error_object_message|]].
    + unfold error_object. simplify_map_eq.
      unfold Convert.valueToString. by rewrite Hnone.
    + destruct (composed_message_binding errorCode customMessage logmessage
                  lowlevelError static_init) as [rest ->].
      apply contains_app_r.
      pose proof (binding_section_code errorCode customMessage
                    (nrfjprog_js_err_map static_init)) as Hname.
      unfold Convert.valueToString in Hname. rewrite Hnone in Hname.
      exact Hname.
  - intros Hcode Hnone.
    assert (lowlevelError ≠ SUCCESS) as Hll.
    { intros ->. cbn [nrfjprogdll_err_t_map static_init] in Hnone.
      by rewrite table_has_SUCCESS in Hnone. }
    eexists _, _. split; [by apply getErrorMessage_failure|].
    split; [|split; [apply error_object_message|]].
    + unfold error_object. simplify_map_eq.
      unfold Convert.valueToString. by rewrite Hnone.
    + unfold composed_message.
      destruct (decide (lowlevelError = SUCCESS)); [done|].
      apply contains_app_l, contains_app_r.
      unfold vendor_section, Convert.valueToString. rewrite Hnone.
      exists "", newline. cbn [default]. by rewrite !string_app_assoc.
Qed.

End UnknownCodes.

Lemma getErrorMessage_unknown_codes_witness :
  (nrfjprog_js_err_map sample_store !! 99 = None
   ∧ 99 ≠ JsSuccess
   ∧ nrfjprogdll_err_t_map sample_store !! 77 = None)
  ∧ (∃ props msg,
       ErrorMessage.getErrorMessage 99 "reading" "" 77 sample_store
       = (JsObject props, sample_store)
       ∧ props !! "errcode" = Some (JsString "Unknown")
       ∧ props !! "message" = Some (JsString msg)
       ∧ contains ("Errorcode: Unknown (0x" +:+ hex_of_int 99 +:+ ")") msg)
  ∧ (∃ props msg,
       ErrorMessage.getErrorMessage 99 "reading" "" 77 sample_store
       = (JsObject props, sample_store)
       ∧ props !! "lowlevelError" = Some (JsString "Unknown")
       ∧ props !! "message" = Some (JsString msg)
       ∧ contains ("Lowlevel error: Unknown (" +:+ hex_of_int 77 +:+ ")") msg).
Proof.
  assert (nrfjprog_js_err_map sample_store !! 99 = None) as Hbinding
    by reflexivity.
  assert (nrfjprogdll_err_t_map sample_store !! 77 = None) as Hvendor
    by reflexivity.
  assert (99 ≠ JsSuccess) as Hcode by discriminate.
  destruct (@getErrorMessage_unknown_codes errorcodes_sample
              nrfjprogdll_err_t_sample 99 "reading" "" 77)
    as (_ & Hfirst & Hsecond).
  split; [by repeat split|].
  split; [exact (Hfirst Hbinding) | exact (Hsecond Hcode Hvendor)].
Defined.

(** C6. For every argument index and type description,
    [getTypeErrorMessage] returns "<Ordinal> argument must be a <type>",
    the ordinal being "First" for 0, "Second" for 1, "Third" for 2,
    "Fourth" for 3, "Fifth" for 4, "Sixth" for 5, "Seventh" for 6 and
    "Unknown" for every other index, 7 and above and the negative ones
    included. *)
Theorem getTypeErrorMessage_sentence argumentNumber message st :
  ErrorMessage.getTypeErrorMessage argumentNumber message st
  = (JsString (ordinal_word argumentNumber +:+ " argument must be a " +:+ message),
     st).
Proof.
  unfold ErrorMessage.getTypeErrorMessage, ordinal_word.
  unfold_store. unfold_stream. unfold Convert.toJsString.
  rewrite string_app_assoc.
  case_bool_decide as Hrange.
  - assert (argumentNumber = 0 ∨ argumentNumber = 1 ∨ argumentNumber = 2
            ∨ argumentNumber = 3 ∨ argumentNumber = 4 ∨ argumentNumber = 5
            ∨ argumentNumber = 6) as Hcases by lia.
    by destruct Hcases as [->|[->|[->|[->|[->|[->| ->]]]]]].
  - destruct argumentNumber as [|[[[]|[]|]|[[]|[]|]|]|]; try reflexivity; lia.
Qed.

(** C7. For every field name and message, [getStructErrorMessage] returns
    exactly "Property: <name> Message: <message>"; for the name "foo" and
    the message "bar" that is "Property: foo Message: bar". *)
Theorem getStructErrorMessage_sentence :
  (∀ name message st,
     ErrorMessage.getStructErrorMessage name message st
     = (JsString ("Property: " +:+ name +:+ " Message: " +:+ message), st))
  ∧ (∀ st,
       ErrorMessage.getStructErrorMessage "foo" "bar" st
       = (JsString "Property: foo Message: bar", st)).
Proof.
  split; [|reflexivity].
  intros name message st. unfold ErrorMessage.getStructErrorMessage.
  unfold_store. unfold_stream. unfold Convert.toJsString.
  by rewrite !string_app_assoc.
Qed.

(** C8. For every non-success binding code, the error object returned by
    [getErrorMessage] carries the seven fields: [errno] the binding code,
    [errcode] the binding error name, [erroperation] the operation
    description, [errmsg] the composed message, [lowlevelErrorNo] the
    vendor code, [lowlevelError] the vendor error name, and [output] the
    log text. *)
Theorem getErrorMessage_fields
    errorCode customMessage logmessage lowlevelError st :
  errorCode ≠ JsSuccess →
  ∃ props,
    ErrorMessage.getErrorMessage errorCode customMessage logmessage lowlevelError st
    = (JsObject props, st)
    ∧ props !! "errno" = Some (JsNumber errorCode)
    ∧ props !! "errcode"
      = Some (JsString (Convert.valueToString errorCode (nrfjprog_js_err_map st)))
    ∧ props !! "erroperation" = Some (JsString customMessage)
    ∧ props !! "errmsg"
      = Some (JsString (composed_message errorCode customMessage logmessage
                          lowlevelError st))
    ∧ props !! "lowlevelErrorNo" = Some (JsNumber lowlevelError)
    ∧ props !! "lowlevelError"
      = Some (JsString
                (Convert.valueToString lowlevelError (nrfjprogdll_err_t_map st)))
    ∧ props !! "output" = Some (JsString logmessage).
Proof.
  intros Hcode. eexists. split; [by apply getErrorMessage_failure|].
  unfold error_object. by repeat split; simplify_map_eq.
Qed.

Lemma getErrorMessage_fields_witness :
  5 ≠ JsSuccess
  ∧ ∃ props,
      ErrorMessage.getErrorMessage 5 "opening the device" "no probe" (-13)
        sample_store
      = (JsObject props, sample_store)
      ∧ props !! "errno" = Some (JsNumber 5)
      ∧ props !! "errcode"
        = Some (JsString
                  (Convert.valueToString 5 (nrfjprog_js_err_map sample_store)))
      ∧ props !! "erroperation" = Some (JsString "opening the device")
      ∧ props !! "errmsg"
        = Some (JsString (composed_message 5 "opening the device" "no probe"
                            (-13) sample_store))
      ∧ props !! "lowlevelErrorNo" = Some (JsNumber (-13))
      ∧ props !! "lowlevelError"
        = Some (JsString
                  (Convert.valueToString (-13)
                     (nrfjprogdll_err_t_map sample_store)))
      ∧ props !! "output" = Some (JsString "no probe").
Proof.
  split; [discriminate|].
  apply (getErrorMessage_fields 5 "opening the device" "no probe" (-13)
           sample_store).
  discriminate.
Defined.

(** C10. For every non-success binding code, the [errmsg] field of the
    returned error object and the message the error value was built from
    are one and the same string, the composed message. *)
Theorem getErrorMessage_errmsg_is_message
    errorCode customMessage logmessage lowlevelError st :
  errorCode ≠ JsSuccess →
  ∃ props msg,
    ErrorMessage.getErrorMessage errorCode customMessage logmessage lowlevelError st
    = (JsObject props, st)
    ∧ props !! "message" = Some (JsString msg)
    ∧ props !! "errmsg" = Some (JsString msg)
    ∧ msg = composed_message errorCode customMessage logmessage lowlevelError st.
Proof.
  intros Hcode. eexists _, _. split; [by apply getErrorMessage_failure|].
  unfold error_object. by repeat split; simplify_map_eq.
Qed.

Lemma getErrorMessage_errmsg_is_message_witness :
  12 ≠ JsSuccess
  ∧ ∃ props msg,
      ErrorMessage.getErrorMessage 12 "reading memory" "" (-90) sample_store
      = (JsObject props, sample_store)
      ∧ props !! "message" = Some (JsString msg)
      ∧ props !! "errmsg" = Some (JsString msg)
      ∧ msg = composed_message 12 "reading memory" "" (-90) sample_store.
Proof.
  split; [discriminate|].
  apply (getErrorMessage_errmsg_is_message 12 "reading memory" "" (-90)
           sample_store).
  discriminate.
Defined.

(** ** Further facts about strings and numerals *)

Lemma string_length_app (a b : string) :
  String.length (a +:+ b) = (String.length a + String.length b)%nat.
Proof.
  induction a as [|x a IH]; [done|].
  rewrite string_app_cons. cbn [String.length]. by rewrite IH.
Qed.

Lemma string_app_inj_l (a b c : string) : a +:+ b = a +:+ c → b = c.
Proof. apply (inj (String.app a)). Qed.

Lemma string_app_inj_r (a b c : string) : a +:+ c = b +:+ c → a = b.
Proof.
  revert b. induction a as [|x a IH]; intros [|y b] Heq.
  - done.
  - apply (f_equal String.length) in Heq.
    rewrite !string_length_app in Heq. cbn [String.length] in Heq. lia.
  - apply (f_equal String.length) in Heq.
    rewrite !string_length_app in Heq. cbn [String.length] in Heq. lia.
  - rewrite !string_app_cons in Heq. injection Heq as -> Heq.
    f_equal. by apply IH.
Qed.

Lemma hex_digits_inj (m n : N) : hex_digits m = hex_digits n → m = n.
Proof.
  intros Heq. rewrite <- (hex_digits_value m), <- (hex_digits_value n).
  by rewrite Heq.
Qed.

(** Reading the numeral of an [int] written in hexadecimal mode gives the
    value modulo 2^32. *)
Lemma hex_of_int_read_back (n : Z) :
  HexString.to_Z ("0x" +:+ hex_of_int n) = n mod 2 ^ 32.
Proof.
  unfold hex_of_int.
  assert (0 ≤ n mod 2 ^ 32) as Hpos by (apply Z.mod_pos_bound; lia).
  rewrite <- (Z2N.id (n mod 2 ^ 32)) at 2 by done.
  generalize (Z.to_N (n mod 2 ^ 32)). intros k.
  pose proof (hex_digits_value k) as Hk.
  unfold HexString.to_Z.
  change ("0x" +:+ hex_digits k) with (String "0" (String "x" (hex_digits k))) in *.
  cbv beta iota. destruct (ascii_dec "0" "-") as [|_]; [done|].
  rewrite Hk. by destruct k.
Qed.

(** Within the range of [int], different values have different numerals. *)
Lemma hex_of_int_inj (a b : Z) :
  - 2 ^ 31 ≤ a < 2 ^ 31 → - 2 ^ 31 ≤ b < 2 ^ 31 →
  hex_of_int a = hex_of_int b → a = b.
Proof.
  intros Ha Hb Heq. apply hex_digits_inj in Heq.
  apply (f_equal Z.of_N) in Heq.
  rewrite !Z2N.id in Heq by (apply Z.mod_pos_bound; lia).
  change (2 ^ 32) with 4294967296 in Heq.
  change (2 ^ 31) with 2147483648 in Ha, Hb.
  Z.div_mod_to_equations. lia.
Qed.


(** ** Further properties of the operations *)

(** X1. [getErrorMessage] returns [Undefined] exactly when the binding code
    is [JsSuccess], and an error object exactly when it is any other code:
    it never returns a number or a string. *)
Theorem getErrorMessage_undefined_iff
    errorCode customMessage logmessage lowlevelError st :
  (fst (ErrorMessage.getErrorMessage errorCode customMessage logmessage
          lowlevelError st) = Undefined
   ↔ errorCode = JsSuccess)
  ∧ ((∃ props,
        fst (ErrorMessage.getErrorMessage errorCode customMessage logmessage
               lowlevelError st) = JsObject props)
     ↔ errorCode ≠ JsSuccess).
Proof.
  destruct (decide (errorCode = JsSuccess)) as [->|Hcode].
  - rewrite getErrorMessage_success_value. cbn [fst].
    split; [done|]. split; [intros [props Hprops]; discriminate | done].
  - rewrite getErrorMessage_failure by done. cbn [fst].
    split; [split; [discriminate | done] |]. split; [done | eauto].
Qed.



(** X3. Whatever the vendor code and the log text, the message starts with
    "Error occured when <operation>. Errorcode: " and ends with a line end. *)
Theorem getErrorMessage_message_frame
    errorCode customMessage logmessage lowlevelError st :
  errorCode ≠ JsSuccess →
  ∃ middle,
    error_message
      (fst (ErrorMessage.getErrorMessage errorCode customMessage logmessage
              lowlevelError st))
    = Some ("Error occured when " +:+ customMessage +:+ ". Errorcode: "
              +:+ middle +:+ newline).
Proof.
  intros Hcode. rewrite getErrorMessage_failure by done.
  cbn [fst error_message]. rewrite error_object_message.
  unfold composed_message, binding_section, vendor_section, log_section.
  set (name := Convert.valueToString errorCode _).
  set (vendor := Convert.valueToString lowlevelError _).
  destruct (decide (lowlevelError = SUCCESS)); destruct logmessage as [|c log];
    cbn [empty_string].
  - exists (name +:+ " (0x" +:+ hex_of_int errorCode +:+ ")").
    by rewrite !string_app_assoc, ?string_app_nil_r.
  - exists (name +:+ " (0x" +:+ hex_of_int errorCode +:+ ")" +:+ newline
            +:+ String c log).
    by rewrite !string_app_assoc.
  - exists (name +:+ " (0x" +:+ hex_of_int errorCode +:+ ")" +:+ newline
            +:+ "Lowlevel error: " +:+ vendor +:+ " ("
            +:+ hex_of_int lowlevelError +:+ ")").
    by rewrite !string_app_assoc, ?string_app_nil_r.
  - exists (name +:+ " (0x" +:+ hex_of_int errorCode +:+ ")" +:+ newline
            +:+ "Lowlevel error: " +:+ vendor +:+ " ("
            +:+ hex_of_int lowlevelError +:+ ")" +:+ newline +:+ String c log).
    by rewrite !string_app_assoc.
Qed.

Lemma getErrorMessage_message_frame_witness :
  8 ≠ JsSuccess
  ∧ ∃ middle,
      error_message
        (fst (ErrorMessage.getErrorMessage 8 "connecting" "probe lost" (-11)
                sample_store))
      = Some ("Error occured when " +:+ "connecting" +:+ ". Errorcode: "
                +:+ middle +:+ newline).
Proof.
  split; [discriminate|].
  apply (getErrorMessage_message_frame 8 "connecting" "probe lost" (-11)
           sample_store).
  discriminate.
Defined.

(** X4. With the vendor code [SUCCESS] and a log text that is not empty,
    the log text and a line end follow the binding section directly. *)
Theorem getErrorMessage_log_without_vendor errorCode customMessage logmessage st :
  errorCode ≠ JsSuccess →
  logmessage ≠ "" →
  error_message
    (fst (ErrorMessage.getErrorMessage errorCode customMessage logmessage
            SUCCESS st))
  = Some ("Error occured when " +:+ customMessage +:+ ". Errorcode: "
            +:+ Convert.valueToString errorCode (nrfjprog_js_err_map st)
            +:+ " (0x" +:+ hex_of_int errorCode +:+ ")" +:+ newline
            +:+ logmessage +:+ newline).
Proof.
  intros Hcode Hlog. rewrite getErrorMessage_failure by done.
  cbn [fst error_message]. rewrite error_object_message.
  unfold composed_message, binding_section, log_section.
  destruct (decide (SUCCESS = SUCCESS)); [|done].
  destruct logmessage; [done|]. cbn [empty_string].
  by rewrite !string_app_assoc.
Qed.

Lemma getErrorMessage_log_without_vendor_witness :
  (13 ≠ JsSuccess ∧ "no such file" ≠ "")
  ∧ error_message
      (fst (ErrorMessage.getErrorMessage 13 "opening the hex file" "no such file"
              SUCCESS sample_store))
    = Some ("Error occured when " +:+ "opening the hex file" +:+ ". Errorcode: "
              +:+ Convert.valueToString 13 (nrfjprog_js_err_map sample_store)
              +:+ " (0x" +:+ hex_of_int 13 +:+ ")" +:+ newline
              +:+ "no such file" +:+ newline).
Proof.
  split; [split; discriminate|].
  apply (getErrorMessage_log_without_vendor 13 "opening the hex file"
           "no such file" sample_store); discriminate.
Defined.

(** X5. Two binding codes in the range of [int] that are displayed under
    the same name (two unknown codes, say) and whose messages are equal,
    all other arguments being the same, are the same code: the number in
    the message tells them apart. *)
Theorem getErrorMessage_number_tells_codes_apart
    a b customMessage logmessage lowlevelError st :
  - 2 ^ 31 ≤ a < 2 ^ 31 →
  - 2 ^ 31 ≤ b < 2 ^ 31 →
  a ≠ JsSuccess →
  b ≠ JsSuccess →
  Convert.valueToString a (nrfjprog_js_err_map st)
  = Convert.valueToString b (nrfjprog_js_err_map st) →
  error_message
    (fst (ErrorMessage.getErrorMessage a customMessage logmessage lowlevelError st))
  = error_message
      (fst (ErrorMessage.getErrorMessage b customMessage logmessage lowlevelError st)) →
  a = b.
Proof.
  intros Ha Hb Hcode_a Hcode_b Hname.
  rewrite !getErrorMessage_failure by done.
  cbn [fst error_message]. rewrite !error_object_message.
  intros Hmsg.
  assert (composed_message a customMessage logmessage lowlevelError st
          = composed_message b customMessage logmessage lowlevelError st)
    as Hcomposed by congruence.
  clear Hmsg. unfold composed_message in Hcomposed.
  rewrite <- !string_app_assoc in Hcomposed.
  do 2 apply string_app_inj_r in Hcomposed.
  unfold binding_section in Hcomposed. rewrite Hname in Hcomposed.
  do 5 apply string_app_inj_l in Hcomposed.
  apply string_app_inj_r in Hcomposed.
  by apply hex_of_int_inj.
Qed.

Lemma getErrorMessage_number_tells_codes_apart_witness :
  (- 2 ^ 31 ≤ 99 < 2 ^ 31 ∧ 99 ≠ JsSuccess
   ∧ Convert.valueToString 99 (nrfjprog_js_err_map sample_store)
     = Convert.valueToString 99 (nrfjprog_js_err_map sample_store)
   ∧ error_message
       (fst (ErrorMessage.getErrorMessage 99 "reading" "" SUCCESS sample_store))
     = error_message
         (fst (ErrorMessage.getErrorMessage 99 "reading" "" SUCCESS sample_store)))
  ∧ 99 = 99.
Proof.
  assert (- 2 ^ 31 ≤ 99 < 2 ^ 31) as Hrange
    by (split; [discriminate|reflexivity]).
  assert (99 ≠ JsSuccess) as Hcode by discriminate.
  split; [done|].
  exact (getErrorMessage_number_tells_codes_apart 99 99 "reading" "" SUCCESS
           sample_store Hrange Hrange Hcode Hcode eq_refl eq_refl).
Defined.

(** X6. For a negative vendor code the field [lowlevelErrorNo] holds the
    code itself, while the number in the vendor section of the message,
    written in hexadecimal mode, reads back as the code plus 2^32. *)
Theorem getErrorMessage_negative_vendor_code
    errorCode customMessage logmessage lowlevelError st :
  errorCode ≠ JsSuccess →
  - 2 ^ 31 ≤ lowlevelError < 0 →
  ∃ props msg,
    ErrorMessage.getErrorMessage errorCode customMessage logmessage lowlevelError st
    = (JsObject props, st)
    ∧ props !! "lowlevelErrorNo" = Some (JsNumber lowlevelError)
    ∧ props !! "message" = Some (JsString msg)
    ∧ contains
        ("Lowlevel error: "
           +:+ Convert.valueToString lowlevelError (nrfjprogdll_err_t_map st)
           +:+ " (" +:+ hex_of_int lowlevelError +:+ ")")
        msg
    ∧ HexString.to_Z ("0x" +:+ hex_of_int lowlevelError) = lowlevelError + 2 ^ 32.
Proof.
  intros Hcode Hll. eexists _, _.
  split; [by apply getErrorMessage_failure|].
  split; [unfold error_object; by simplify_map_eq|].
  split; [apply error_object_message|].
  split.
  - unfold composed_message.
    destruct (decide (lowlevelError = SUCCESS)) as [->|_]; [unfold SUCCESS in Hll; lia|].
    apply contains_app_l, contains_app_r. unfold vendor_section.
    exists "", newline. by rewrite !string_app_assoc.
  - rewrite hex_of_int_read_back.
    change (2 ^ 32) with 4294967296. change (2 ^ 31) with 2147483648 in Hll.
    Z.div_mod_to_equations. lia.
Qed.

Lemma getErrorMessage_negative_vendor_code_witness :
  (4 ≠ JsSuccess ∧ - 2 ^ 31 ≤ -2 < 0)
  ∧ ∃ props msg,
      ErrorMessage.getErrorMessage 4 "get device info" "" (-2) sample_store
      = (JsObject props, sample_store)
      ∧ props !! "lowlevelErrorNo" = Some (JsNumber (-2))
      ∧ props !! "message" = Some (JsString msg)
      ∧ contains
          ("Lowlevel error: "
             +:+ Convert.valueToString (-2) (nrfjprogdll_err_t_map sample_store)
             +:+ " (" +:+ hex_of_int (-2) +:+ ")")
          msg
      ∧ HexString.to_Z ("0x" +:+ hex_of_int (-2)) = -2 + 2 ^ 32.
Proof.
  assert (- 2 ^ 31 ≤ -2 < 0) as Hrange by (split; [discriminate|reflexivity]).
  assert (4 ≠ JsSuccess) as Hcode by discriminate.
  split; [done|].
  exact (getErrorMessage_negative_vendor_code 4 "get device info" "" (-2)
           sample_store Hcode Hrange).
Defined.

(** X7. For argument indices from 0 to 6, equal sentences come from equal
    indices and equal type descriptions. *)
Theorem getTypeErrorMessage_tells_positions_apart n m type1 type2 st1 st2 :
  0 ≤ n ≤ 6 →
  0 ≤ m ≤ 6 →
  fst (ErrorMessage.getTypeErrorMessage n type1 st1)
  = fst (ErrorMessage.getTypeErrorMessage m type2 st2) →
  n = m ∧ type1 = type2.
Proof.
  intros Hn Hm.
  assert (n = 0 ∨ n = 1 ∨ n = 2 ∨ n = 3 ∨ n = 4 ∨ n = 5 ∨ n = 6) as Hn' by lia.
  assert (m = 0 ∨ m = 1 ∨ m = 2 ∨ m = 3 ∨ m = 4 ∨ m = 5 ∨ m = 6) as Hm' by lia.
  unfold ErrorMessage.getTypeErrorMessage. unfold_store. unfold_stream.
  unfold Convert.toJsString. cbn [fst].
  destruct Hn' as [->|[->|[->|[->|[->|[->| ->]]]]]];
    destruct Hm' as [->|[->|[->|[->|[->|[->| ->]]]]]];
    intros Heq; rewrite !string_app_assoc in Heq;
    cbv [String.append] in Heq; by simplify_eq.
Qed.

Lemma getTypeErrorMessage_tells_positions_apart_witness :
  (0 ≤ 3 ≤ 6
   ∧ fst (ErrorMessage.getTypeErrorMessage 3 "number" sample_store)
     = fst (ErrorMessage.getTypeErrorMessage 3 "number" sample_store))
  ∧ 3 = 3 ∧ "number" = "number".
Proof.
  assert (0 ≤ 3 ≤ 6) as Hrange by (split; discriminate).
  split; [done|].
  exact (getTypeErrorMessage_tells_positions_apart 3 3 "number" "number"
           sample_store sample_store Hrange Hrange eq_refl).
Defined.

(** X8. When two calls of [getStructErrorMessage] give the same sentence,
    the names are equal if and only if the messages are. *)
Theorem getStructErrorMessage_cancel name1 message1 name2 message2 st1 st2 :
  fst (ErrorMessage.getStructErrorMessage name1 message1 st1)
  = fst (ErrorMessage.getStructErrorMessage name2 message2 st2) →
  (name1 = name2 ↔ message1 = message2).
Proof.
  unfold ErrorMessage.getStructErrorMessage. unfold_store. unfold_stream.
  unfold Convert.toJsString. cbn [fst]. rewrite !string_app_assoc.
  intros Heq. injection Heq as Heq.
  apply string_app_inj_l in Heq.
  split.
  - intros ->. by do 2 apply string_app_inj_l in Heq.
  - intros ->. rewrite <- !string_app_assoc in Heq.
    by do 2 apply string_app_inj_r in Heq.
Qed.

Lemma getStructErrorMessage_cancel_witness :
  fst (ErrorMessage.getStructErrorMessage "foo" "bar" sample_store)
  = fst (ErrorMessage.getStructErrorMessage "foo" "bar" sample_store)
  ∧ ("foo" = "foo" ↔ "bar" = "bar").
Proof.
  split; [reflexivity|].
  exact (getStructErrorMessage_cancel "foo" "bar" "foo" "bar" sample_store
           sample_store eq_refl).
Defined.

(** X9. The sentence does not determine the pair it was made from: a
    name that continues with " Message: " and more gives the sentence of
    the shorter name with the longer message. *)
Theorem getStructErrorMessage_ambiguous name middle message st :
  ErrorMessage.getStructErrorMessage (name +:+ " Message: " +:+ middle) message st
  = ErrorMessage.getStructErrorMessage name (middle +:+ " Message: " +:+ message) st
  ∧ name +:+ " Message: " +:+ middle ≠ name.
Proof.
  split.
  - unfold ErrorMessage.getStructErrorMessage. unfold_store. unfold_stream.
    by rewrite !string_app_assoc.
  - intros Heq. apply (f_equal String.length) in Heq.
    rewrite !string_length_app in Heq. cbn [String.length] in Heq. lia.
Qed.

(** ** Properties of the two name tables *)

Section NameTables.
Context {ec : errorcodes} {dll : nrfjprogdll_err_t}.

(** X10. A code has no entry in a table exactly when it is the value of none
    of the enumerators the table's initialiser lists; this holds for both
    tables and whatever values the enumerators have. *)
Theorem name_tables_missing_keys code :
  (nrfjprog_js_err_map static_init !! code = None ↔ code ∉ errorcodes_values)
  ∧ (nrfjprogdll_err_t_map static_init !! code = None
     ↔ code ∉ nrfjprogdll_err_t_values).
Proof.
  cbn [nrfjprog_js_err_map nrfjprogdll_err_t_map static_init].
  unfold nrfjprog_js_err_map_init, nrfjprogdll_err_t_map_init, NAME_MAP_ENTRY.
  split.
  - match goal with
    | |- list_to_map ?l !! _ = None ↔ _ =>
        exact (iff_sym (not_elem_of_list_to_map (M:=gmap Z) l code))
    end.
  - match goal with
    | |- list_to_map ?l !! _ = None ↔ _ =>
        exact (iff_sym (not_elem_of_list_to_map (M:=gmap Z) l code))
    end.
Qed.

Ltac table_entry Hdistinct :=
  apply elem_of_list_to_map_1;
  [ exact Hdistinct
  | repeat first [apply list_elem_of_here | apply list_elem_of_further] ].

(** X11. When the enumerators of [errorcodes] have pairwise different
    values, [nrfjprog_js_err_map] holds fifteen entries and maps every
    enumerator to its own identifier ([JsSuccess] to "Success"). *)
Theorem nrfjprog_js_err_map_entries :
  NoDup errorcodes_values →
  size nrfjprog_js_err_map_init = 15%nat
  ∧ nrfjprog_js_err_map_init !! JsSuccess = Some "Success"
  ∧ nrfjprog_js_err_map_init !! CouldNotFindJlinkDLL = Some "CouldNotFindJlinkDLL"
  ∧ nrfjprog_js_err_map_init !! CouldNotFindJprogDLL = Some "CouldNotFindJprogDLL"
  ∧ nrfjprog_js_err_map_init !! CouldNotLoadDLL = Some "CouldNotLoadDLL"
  ∧ nrfjprog_js_err_map_init !! CouldNotOpenDLL = Some "CouldNotOpenDLL"
  ∧ nrfjprog_js_err_map_init !! CouldNotOpenDevice = Some "CouldNotOpenDevice"
  ∧ nrfjprog_js_err_map_init !! CouldNotResetDevice = Some "CouldNotResetDevice"
  ∧ nrfjprog_js_err_map_init !! CouldNotCloseDevice = Some "CouldNotCloseDevice"
  ∧ nrfjprog_js_err_map_init !! CouldNotConnectToDevice
    = Some "CouldNotConnectToDevice"
  ∧ nrfjprog_js_err_map_init !! CouldNotCallFunction = Some "CouldNotCallFunction"
  ∧ nrfjprog_js_err_map_init !! CouldNotErase = Some "CouldNotErase"
  ∧ nrfjprog_js_err_map_init !! CouldNotProgram = Some "CouldNotProgram"
  ∧ nrfjprog_js_err_map_init !! CouldNotRead = Some "CouldNotRead"
  ∧ nrfjprog_js_err_map_init !! CouldNotOpenHexFile = Some "CouldNotOpenHexFile"
  ∧ nrfjprog_js_err_map_init !! WrongMagicNumber = Some "WrongMagicNumber".
Proof.
  intros Hdistinct. unfold nrfjprog_js_err_map_init.
  split; [by rewrite map_size_list_to_map|].
  repeat split; table_entry Hdistinct.
Qed.

(** X12. When the enumerators of [nrfjprogdll_err_t] have pairwise different
    values, [nrfjprogdll_err_t_map] holds twenty-eight entries, and a vendor
    code that is one of them is displayed under the identifier of its
    enumerator. *)
Theorem nrfjprogdll_err_t_map_entries :
  NoDup nrfjprogdll_err_t_values →
  size nrfjprogdll_err_t_map_init = 28%nat
  ∧ nrfjprogdll_err_t_map_init !! SUCCESS = Some "SUCCESS"
  ∧ nrfjprogdll_err_t_map_init !! OUT_OF_MEMORY = Some "OUT_OF_MEMORY"
  ∧ nrfjprogdll_err_t_map_init !! INVALID_OPERATION = Some "INVALID_OPERATION"
  ∧ nrfjprogdll_err_t_map_init !! INVALID_PARAMETER = Some "INVALID_PARAMETER"
  ∧ nrfjprogdll_err_t_map_init !! INVALID_DEVICE_FOR_OPERATION
    = Some "INVALID_DEVICE_FOR_OPERATION"
  ∧ nrfjprogdll_err_t_map_init !! WRONG_FAMILY_FOR_DEVICE
    = Some "WRONG_FAMILY_FOR_DEVICE"
  ∧ nrfjprogdll_err_t_map_init !! EMULATOR_NOT_CONNECTED
    = Some "EMULATOR_NOT_CONNECTED"
  ∧ nrfjprogdll_err_t_map_init !! CANNOT_CONNECT = Some "CANNOT_CONNECT"
  ∧ nrfjprogdll_err_t_map_init !! LOW_VOLTAGE = Some "LOW_VOLTAGE"
  ∧ nrfjprogdll_err_t_map_init !! NO_EMULATOR_CONNECTED
    = Some "NO_EMULATOR_CONNECTED"
  ∧ nrfjprogdll_err_t_map_init !! FAMILY_UNKNOWN = Some "FAMILY_UNKNOWN"
  ∧ nrfjprogdll_err_t_map_init !! NVMC_ERROR = Some "NVMC_ERROR"
  ∧ nrfjprogdll_err_t_map_init !! RECOVER_FAILED = Some "RECOVER_FAILED"
  ∧ nrfjprogdll_err_t_map_init !! RAM_IS_OFF_ERROR = Some "RAM_IS_OFF_ERROR"
  ∧ nrfjprogdll_err_t_map_init !! QspiIniNotFoundError
    = Some "QspiIniNotFoundError"
  ∧ nrfjprogdll_err_t_map_init !! QspiIniCannotBeOpenedError
    = Some "QspiIniCannotBeOpenedError"
  ∧ nrfjprogdll_err_t_map_init !! QspiSyntaxError = Some "QspiSyntaxError"
  ∧ nrfjprogdll_err_t_map_init !! QspiIniParsingError = Some "QspiIniParsingError"
  ∧ nrfjprogdll_err_t_map_init !! NOT_AVAILABLE_BECAUSE_PROTECTION
    = Some "NOT_AVAILABLE_BECAUSE_PROTECTION"
  ∧ nrfjprogdll_err_t_map_init !! NOT_AVAILABLE_BECAUSE_MPU_CONFIG
    = Some "NOT_AVAILABLE_BECAUSE_MPU_CONFIG"
  ∧ nrfjprogdll_err_t_map_init !! JLINKARM_DLL_NOT_FOUND
    = Some "JLINKARM_DLL_NOT_FOUND"
  ∧ nrfjprogdll_err_t_map_init !! JLINKARM_DLL_COULD_NOT_BE_OPENED
    = Some "JLINKARM_DLL_COULD_NOT_BE_OPENED"
  ∧ nrfjprogdll_err_t_map_init !! JLINKARM_DLL_ERROR = Some "JLINKARM_DLL_ERROR"
  ∧ nrfjprogdll_err_t_map_init !! JLINKARM_DLL_TOO_OLD
    = Some "JLINKARM_DLL_TOO_OLD"
  ∧ nrfjprogdll_err_t_map_init !! NRFJPROG_SUB_DLL_NOT_FOUND
    = Some "NRFJPROG_SUB_DLL_NOT_FOUND"
  ∧ nrfjprogdll_err_t_map_init !! NRFJPROG_SUB_DLL_COULD_NOT_BE_OPENED
    = Some "NRFJPROG_SUB_DLL_COULD_NOT_BE_OPENED"
  ∧ nrfjprogdll_err_t_map_init !! NRFJPROG_SUB_DLL_COULD_NOT_LOAD_FUNCTIONS
    = Some "NRFJPROG_SUB_DLL_COULD_NOT_LOAD_FUNCTIONS"
  ∧ nrfjprogdll_err_t_map_init !! NOT_IMPLEMENTED_ERROR
    = Some "NOT_IMPLEMENTED_ERROR".
Proof.
  intros Hdistinct. unfold nrfjprogdll_err_t_map_init, NAME_MAP_ENTRY.
  split; [by rewrite map_size_list_to_map|].
  repeat split; table_entry Hdistinct.
Qed.

End NameTables.

Lemma nrfjprog_js_err_map_entries_witness :
  NoDup (@errorcodes_values errorcodes_sample)
  ∧ size (@nrfjprog_js_err_map_init errorcodes_sample) = 15%nat
  ∧ @nrfjprog_js_err_map_init errorcodes_sample !! 10 = Some "CouldNotErase".
Proof.
  assert (NoDup (@errorcodes_values errorcodes_sample)) as Hdistinct
    by (apply (bool_decide_unpack _); vm_compute; exact I).
  split; [exact Hdistinct|].
  pose proof (@nrfjprog_js_err_map_entries errorcodes_sample Hdistinct)
    as (Hsize & _ & _ & _ & _ & _ & _ & _ & _ & _ & _ & Herase & _).
  split; [exact Hsize | exact Herase].
Defined.

Lemma nrfjprogdll_err_t_map_entries_witness :
  NoDup (@nrfjprogdll_err_t_values nrfjprogdll_err_t_sample)
  ∧ size (@nrfjprogdll_err_t_map_init nrfjprogdll_err_t_sample) = 28%nat
  ∧ @nrfjprogdll_err_t_map_init nrfjprogdll_err_t_sample !! (-2)
    = Some "INVALID_OPERATION".
Proof.
  assert (NoDup (@nrfjprogdll_err_t_values nrfjprogdll_err_t_sample))
    as Hdistinct by (apply (bool_decide_unpack _); vm_compute; exact I).
  split; [exact Hdistinct|].
  pose proof (@nrfjprogdll_err_t_map_entries nrfjprogdll_err_t_sample Hdistinct)
    as (Hsize & _ & _ & Hinvalid & _).
  split; [exact Hsize | exact Hinvalid].
Defined.
